(** * DiceIt: the round registry and settlement engine of [GameManager]

    A shallow embedding of the class [GameManager] (one game per Telegram
    group: [startGame], [joinGame], [calculateWinners], [rollDice],
    [cancelGame]) together with the properties of it that the design
    document states.

    Conventions of the embedding.
    - JavaScript numbers that carry money (stakes, balances, pots, fees,
      payouts) are exact rationals [Q]; facts stated with Leibniz equality use
      no law of arithmetic, facts stated with [==] hold up to the rounding of
      IEEE doubles.  Guesses, dice results and identifiers are integers [Z].
    - Tokens and dice types are strings, as in the source: nothing in
      [GameManager] restricts them.
    - An [async] method is a state transformer that runs to completion: two
      methods never interleave at an [await].
    - [logger] calls and timestamps are left out. *)

From Stdlib Require Import QArith.
From stdpp Require Import gmap strings list.

Local Open Scope string_scope.
Local Open Scope list_scope.
Local Open Scope Z_scope.

Module GameManager.

(** ** Dice configurations *)

(** One entry of the [configs] table. *)
Record DiceRange := { min : Z; max : Z; name : string }.

(** What [configs[diceType] || configs['D6']] can evaluate to.  [configs] is
    an object literal, so a lookup that misses its own four keys continues in
    [Object.prototype]; the functions and the prototype object found there
    are truthy and have neither a [min] nor a [max] property. *)
Inductive DiceConfig :=
  | Config (range : DiceRange)
  | Inherited (key : string).

Definition D6 : DiceRange := {| min := 1; max := 6; name := "6-sided dice 🎲" |}.
Definition D10 : DiceRange := {| min := 1; max := 10; name := "10-sided dice 🔟" |}.
Definition D20 : DiceRange := {| min := 1; max := 20; name := "20-sided dice 🎯" |}.
Definition D100 : DiceRange := {| min := 1; max := 100; name := "100-sided dice 💯" |}.

(** The own properties of [configs]. *)
Definition configs : gmap string DiceRange :=
  <["D6" := D6]> (<["D10" := D10]> (<["D20" := D20]> (<["D100" := D100]> ∅))).

(** The property names every object literal inherits from [Object.prototype]. *)
Definition Object_prototype : list string :=
  [ "constructor"; "hasOwnProperty"; "isPrototypeOf"; "propertyIsEnumerable";
    "toLocaleString"; "toString"; "valueOf"; "__proto__";
    "__defineGetter__"; "__defineSetter__"; "__lookupGetter__";
    "__lookupSetter__" ].

Definition getDiceConfig (diceType : string) : DiceConfig :=
  match configs !! diceType with
  | Some range => Config range
  | None =>
      if bool_decide (diceType ∈ Object_prototype) then Inherited diceType
      else Config D6
  end.

(** [const { min, max } = gameData.diceConfig]: [None] stands for [undefined]. *)
Definition config_min (c : DiceConfig) : option Z :=
  match c with Config r => Some (min r) | Inherited _ => None end.
Definition config_max (c : DiceConfig) : option Z :=
  match c with Config r => Some (max r) | Inherited _ => None end.


(** JavaScript's [a < b] and [a > b] on a number and a possibly [undefined]
    operand: [undefined] converts to [NaN] and the comparison is [false]. *)
Definition js_lt (a : Z) (b : option Z) : bool :=
  match b with Some b => (a <? b)%Z | None => false end.
Definition js_gt (a : Z) (b : option Z) : bool :=
  match b with Some b => (a >? b)%Z | None => false end.

(** ** Players, pots and games *)

Record Player := {
  userId : Z;
  username : string;
  amount : Q;
  token : string;
  chosenNumber : Z;
  betId : Z
}.

(** The object [pot], created as [{ SOL: 0, USDC: 0 }].  The two keys it is
    created with always hold numbers.  [others] lists the further keys that
    [pot[token] += amount] has written: the old value of such a slot is
    [undefined] or an inherited property, so what is stored there is [NaN] or
    a string, never a number. *)
Record Pot := { SOL : Q; USDC : Q; others : gset string }.

Inductive PotValue :=
  | Number (q : Q)
  | NonNumeric
  | Undefined.

(** [pot[token]] *)
Definition pot_get (pot : Pot) (token : string) : PotValue :=
  if decide (token = "SOL") then Number (SOL pot)
  else if decide (token = "USDC") then Number (USDC pot)
  else if decide (token ∈ others pot) then NonNumeric
  else if decide (token ∈ Object_prototype) then NonNumeric
  else Undefined.

(** [pot[token] += amount] *)
Definition pot_add (token : string) (amount : Q) (pot : Pot) : Pot :=
  if decide (token = "SOL") then
    {| SOL := (SOL pot + amount)%Q; USDC := USDC pot; others := others pot |}
  else if decide (token = "USDC") then
    {| SOL := SOL pot; USDC := (USDC pot + amount)%Q; others := others pot |}
  else
    {| SOL := SOL pot; USDC := USDC pot; others := {[token]} ∪ others pot |}.

Record GameData := {
  gameId : Z;
  diceType : string;
  randomnessMethod : string;
  diceConfig : DiceConfig;
  players : list Player;
  pot : Pot
}.

(** ** The database client *)

Record Wallet := { sol_balance : Q; usdc_balance : Q }.

Inductive Column := col_sol_balance | col_usdc_balance.

Definition balance_of (c : Column) (w : Wallet) : Q :=
  match c with col_sol_balance => sol_balance w | col_usdc_balance => usdc_balance w end.

Definition set_balance (c : Column) (v : Q) (w : Wallet) : Wallet :=
  match c with
  | col_sol_balance => {| sol_balance := v; usdc_balance := usdc_balance w |}
  | col_usdc_balance => {| sol_balance := sol_balance w; usdc_balance := v |}
  end.

Inductive Status := waiting | rolling | finished | cancelled.

(** The requests [GameManager] sends to the database, with the fields it
    writes. *)
Inductive Call :=
  | games_insert_call (group_id : Z) (group_name dice_type randomness_method : string)
      (status : Status)
  | games_update_counts_call (id : Z) (num_players : nat) (pot_sol pot_usdc : Q)
  | games_update_status_call (id : Z) (status : Status)
  | games_update_finished_call (id : Z) (status : Status) (dice_result : Z)
      (winner_ids : list Z) (house_fee_sol house_fee_usdc : Q)
  | bets_insert_call (game_id user_id chosen_number : Z) (stake_amount : Q)
      (token : string)
  | bets_update_won_call (id : Z) (payout : Q) (distance_from_result : Z)
  | bets_update_lost_call (id : Z) (distance_from_result : Z)
  | wallets_select_call (user_id : Z)
  | wallets_update_call (user_id : Z) (column : Column) (value : Q)
  | users_update_win_call (id : Z) (token : string) (payout : Q)
  | users_update_loss_call (id : Z) (token : string) (amount : Q).

(** Whether a request reads or writes the [wallets] table (the ledger). *)
Definition is_ledger_call (c : Call) : bool :=
  match c with
  | wallets_select_call _ | wallets_update_call _ _ _ => true
  | _ => false
  end.

(** ** The state the methods run in *)

(** [activeGames] and [gameTimers] are the two maps of the [GameManager]
    object.  The other fields are its surroundings: the [wallets] table, the
    next identifier the database hands out, which of the successive requests
    fail ([failing n] for the request number [n]), the requests sent so far,
    the timers cleared so far and the environment variable
    [HOUSE_FEE_PERCENT]. *)
Record World := {
  activeGames : gmap Z GameData;
  gameTimers : gmap Z Z;
  wallets : gmap Z Wallet;
  next_id : Z;
  failing : nat -> bool;
  calls : list Call;
  cleared : list Z;
  HOUSE_FEE_PERCENT : option Q
}.

Definition set_activeGames (f : gmap Z GameData -> gmap Z GameData) (w : World) : World :=
  {| activeGames := f (activeGames w); gameTimers := gameTimers w;
     wallets := wallets w; next_id := next_id w; failing := failing w;
     calls := calls w; cleared := cleared w;
     HOUSE_FEE_PERCENT := HOUSE_FEE_PERCENT w |}.

Definition set_gameTimers (f : gmap Z Z -> gmap Z Z) (w : World) : World :=
  {| activeGames := activeGames w; gameTimers := f (gameTimers w);
     wallets := wallets w; next_id := next_id w; failing := failing w;
     calls := calls w; cleared := cleared w;
     HOUSE_FEE_PERCENT := HOUSE_FEE_PERCENT w |}.

Definition set_wallets (f : gmap Z Wallet -> gmap Z Wallet) (w : World) : World :=
  {| activeGames := activeGames w; gameTimers := gameTimers w;
     wallets := f (wallets w); next_id := next_id w; failing := failing w;
     calls := calls w; cleared := cleared w;
     HOUSE_FEE_PERCENT := HOUSE_FEE_PERCENT w |}.

Definition set_next_id (f : Z -> Z) (w : World) : World :=
  {| activeGames := activeGames w; gameTimers := gameTimers w;
     wallets := wallets w; next_id := f (next_id w); failing := failing w;
     calls := calls w; cleared := cleared w;
     HOUSE_FEE_PERCENT := HOUSE_FEE_PERCENT w |}.

Definition set_calls (f : list Call -> list Call) (w : World) : World :=
  {| activeGames := activeGames w; gameTimers := gameTimers w;
     wallets := wallets w; next_id := next_id w; failing := failing w;
     calls := f (calls w); cleared := cleared w;
     HOUSE_FEE_PERCENT := HOUSE_FEE_PERCENT w |}.

Definition set_cleared (f : list Z -> list Z) (w : World) : World :=
  {| activeGames := activeGames w; gameTimers := gameTimers w;
     wallets := wallets w; next_id := next_id w; failing := failing w;
     calls := calls w; cleared := f (cleared w);
     HOUSE_FEE_PERCENT := HOUSE_FEE_PERCENT w |}.

(** A method is a function from the state before to its result and the state
    after. *)
Definition M (A : Type) : Type := World -> A * World.

#[global] Instance M_ret : MRet M := fun A a w => (a, w).
#[global] Instance M_bind : MBind M :=
  fun A B k m w => let (a, w') := m w in k a w'.

Definition gets {A} (f : World -> A) : M A := fun w => (f w, w).
Definition modify (f : World -> World) : M unit := fun w => (tt, f w).

(** [for (const x of l) { body }] *)
Fixpoint for_each {A} (l : list A) (body : A -> M unit) : M unit :=
  match l with
  | [] => mret tt
  | x :: l' => _ ← body x; for_each l' body
  end.

(** Modelled from the spec: the database client [lib/supabase.js] is not
    among the sources.  After the Ledger Port and Round Store contracts a
    request returns a value and never throws: it is recorded in [calls] and
    then takes effect or fails, as [failing] says for its position; the
    answer tells which. *)
Definition request (c : Call) : M bool :=
  fun w => (negb (failing w (length (calls w))), set_calls (fun cs => cs ++ [c]) w).

(** Modelled from the spec: [from('wallets').select('*').eq('user_id', id)
    .single()] of the missing client; its [data] is the row, and [null] when
    the request fails or the table has no such row. *)
Definition wallets_select (user_id : Z) : M (option Wallet) :=
  ok ← request (wallets_select_call user_id);
  if ok : bool then gets (fun w => wallets w !! user_id) else mret None.

(** Modelled from the spec: [from('wallets').update({ [column]: value })
    .eq('user_id', id)] of the missing client; the answer is [true] when the
    row was written. *)
Definition wallets_update (user_id : Z) (column : Column) (value : Q) : M bool :=
  ok ← request (wallets_update_call user_id column value);
  if ok : bool then
    _ ← modify (set_wallets (alter (set_balance column value) user_id)); mret true
  else mret false.

(** Modelled from the spec: [insert(...).select().single()] of the missing
    client; its [data] is the new row, given here by its [id], and the
    request can fail. *)
Definition insert_row (c : Call) : M (option Z) :=
  ok ← request c;
  if ok : bool then
    id ← gets next_id; _ ← modify (set_next_id Z.succ); mret (Some id)
  else mret None.

(** ** Results *)

(** The [error] messages of the methods, under the names of the design
    document. *)
Inductive Error :=
  | AlreadyActive        (* 'A game is already in progress in this group!' *)
  | FailedToCreateGame   (* 'Failed to create game' *)
  | NoActiveRound        (* 'No active game in this group! Use /startgame first.' *)
  | InvalidGuess (min max : option Z)  (* `Choose a number between ${min} and ${max}` *)
  | AlreadyJoined        (* 'You already joined this game!' *)
  | WalletNotFound       (* 'Wallet not found! Use /start first.' *)
  | InsufficientFunds (token : string) (balance : Q)
                         (* `Insufficient ${token} balance. You have ...` *)
  | FailedToPlaceBet     (* 'Failed to place bet' *)
  | NoActiveGameFound    (* 'No active game found' *)
  | EmptyRound.          (* 'No players in game! Game cancelled.' *)

(** [{ error: ... }] or [{ success: true, ... }] *)
Inductive Result (A : Type) :=
  | error (e : Error)
  | success (a : A).
Arguments error {A} e.
Arguments success {A} a.

(** ** startGame *)

Definition startGame (groupId : Z) (groupName diceType randomnessMethod : string)
  : M (Result Z) :=
  active ← gets (fun w => activeGames w !! groupId);
  if active is Some _ then mret (error AlreadyActive)
  else
    let diceConfig := getDiceConfig diceType in
    game ← insert_row
      (games_insert_call groupId groupName diceType randomnessMethod waiting);
    match game with
    | None => mret (error FailedToCreateGame)
    | Some game =>
        _ ← modify (set_activeGames (insert groupId
              {| gameId := game; diceType := diceType;
                 randomnessMethod := randomnessMethod;
                 diceConfig := diceConfig; players := [];
                 pot := {| SOL := 0; USDC := 0; others := ∅ |} |}));
        mret (success game)
    end.

(** ** joinGame *)

(** [x < y] on balances *)
Definition Qltb (x y : Q) : bool := negb (Qle_bool y x).

(** [players.some(p => p.userId === userId)] *)
Definition some_userId (userId : Z) (players : list Player) : bool :=
  existsb (fun p => bool_decide (p.(GameManager.userId) = userId)) players.

(** [token === 'SOL' ? 'sol_balance' : 'usdc_balance'] *)
Definition column_of (token : string) : Column :=
  if decide (token = "SOL") then col_sol_balance else col_usdc_balance.

(** [gameData.players.push(player); gameData.pot[token] += amount] on the
    object stored under [groupId]. *)
Definition add_player (player : Player) (gameData : GameData) : GameData :=
  {| gameId := gameId gameData; diceType := diceType gameData;
     randomnessMethod := randomnessMethod gameData;
     diceConfig := diceConfig gameData;
     players := players gameData ++ [player];
     pot := pot_add (token player) (amount player) (pot gameData) |}.

Definition joinGame (groupId userId : Z) (username : string) (amount : Q)
    (token : string) (chosenNumber : Z) : M (Result Z) :=
  gameData ← gets (fun w => activeGames w !! groupId);
  match gameData with
  | None => mret (error NoActiveRound)
  | Some gameData =>
      let min := config_min (diceConfig gameData) in
      let max := config_max (diceConfig gameData) in
      if js_lt chosenNumber min || js_gt chosenNumber max then
        mret (error (InvalidGuess min max))
      else if some_userId userId (players gameData) then
        mret (error AlreadyJoined)
      else
        wallet ← wallets_select userId;
        match wallet with
        | None => mret (error WalletNotFound)
        | Some wallet =>
            let balance := balance_of (column_of token) wallet in
            if Qltb balance amount then
              mret (error (InsufficientFunds token balance))
            else
              bet ← insert_row
                (bets_insert_call (gameId gameData) userId chosenNumber amount token);
              match bet with
              | None => mret (error FailedToPlaceBet)
              | Some bet =>
                  let newBalance := (balance - amount)%Q in
                  let updateField := column_of token in
                  _ ← wallets_update userId updateField newBalance;
                  let gameData' :=
                    add_player
                      {| userId := userId; username := username;
                         amount := amount; token := token;
                         chosenNumber := chosenNumber; betId := bet |}
                      gameData in
                  _ ← modify (set_activeGames (insert groupId gameData'));
                  _ ← request
                    (games_update_counts_call (gameId gameData')
                       (length (players gameData'))
                       (SOL (pot gameData')) (USDC (pot gameData')));
                  mret (success bet)
              end
        end
  end.

(** ** calculateWinners *)

(** A player with the [distance] field added. *)
Record Scored := { player : Player; distance : Z }.

(** [Math.min(...xs)]; [None] stands for the [Infinity] of no argument. *)
Fixpoint Math_min (xs : list Z) : option Z :=
  match xs with
  | [] => None
  | x :: xs' =>
      match Math_min xs' with
      | None => Some x
      | Some m => Some (Z.min x m)
      end
  end.

Definition calculateWinners (players : list Player) (diceResult : Z) : list Scored :=
  let playersWithDistance :=
    map (fun player =>
           {| player := player;
              distance := Z.abs (chosenNumber player - diceResult) |}) players in
  let minDistance := Math_min (map distance playersWithDistance) in
  let winners :=
    filter (fun p => Some (distance p) = minDistance) playersWithDistance in
  winners.

(** ** cancelGame and rollDice *)

(** The "clean up" lines shared by [rollDice] and [cancelGame]. *)
Definition clean_up (groupId : Z) : M unit :=
  _ ← modify (set_activeGames (delete groupId));
  timer ← gets (fun w => gameTimers w !! groupId);
  match timer with
  | Some timeoutId =>
      modify (fun w =>
        set_gameTimers (delete groupId) (set_cleared (fun l => l ++ [timeoutId]) w))
  | None => mret tt
  end.

(** Reads the wallet of [userId] and, when there is one, writes its balance in
    the column of [token] increased by [delta]. *)
Definition credit (userId : Z) (token : string) (delta : Q) : M unit :=
  wallet ← wallets_select userId;
  match wallet with
  | Some wallet =>
      let updateField := column_of token in
      let currentBalance := balance_of (column_of token) wallet in
      let newBalance := (currentBalance + delta)%Q in
      _ ← wallets_update userId updateField newBalance; mret tt
  | None => mret tt
  end.

Definition cancelGame (groupId : Z) : M unit :=
  gameData ← gets (fun w => activeGames w !! groupId);
  match gameData with
  | None => mret tt
  | Some gameData =>
      _ ← for_each (players gameData) (fun player =>
            credit (GameManager.userId player) (token player) (amount player));
      _ ← request (games_update_status_call (gameId gameData) cancelled);
      clean_up groupId
  end.

(** [parseFloat(process.env.HOUSE_FEE_PERCENT || 2) / 100] *)
Definition houseFeePercent (w : World) : Q :=
  (match HOUSE_FEE_PERCENT w with Some v => v | None => 2 end / 100)%Q.

(** [winners.length] as a number *)
Definition count (l : list Scored) : Q := inject_Z (Z.of_nat (length l)).

(** The success value of [rollDice]. *)
Record RollResult := {
  result_diceResult : Z;
  result_winners : list Scored;
  result_payoutSOL : Q;
  result_payoutUSDC : Q;
  result_totalPlayers : nat;
  result_pot : Pot
}.

(** [winner.token === 'SOL' ? payoutSOL : payoutUSDC] *)
Definition payout_of (payoutSOL payoutUSDC : Q) (winner : Scored) : Q :=
  if decide (token (player winner) = "SOL") then payoutSOL else payoutUSDC.

(** [gameData.players.filter(p => !winners.find(w => w.userId === p.userId))] *)
Definition losers_of (winners : list Scored) (players : list Player) : list Player :=
  List.filter
    (fun p => negb (existsb
       (fun w => bool_decide (GameManager.userId (player w) = GameManager.userId p))
       winners))
    players.

Definition rollDice (groupId diceResult : Z) : M (Result RollResult) :=
  gameData ← gets (fun w => activeGames w !! groupId);
  match gameData with
  | None => mret (error NoActiveGameFound)
  | Some gameData =>
      if bool_decide (length (players gameData) = 0%nat) then
        _ ← cancelGame groupId; mret (error EmptyRound)
      else
        _ ← request (games_update_status_call (gameId gameData) rolling);
        let winners := calculateWinners (players gameData) diceResult in
        houseFeePercent ← gets houseFeePercent;
        let houseFeeSOL := (SOL (pot gameData) * houseFeePercent)%Q in
        let houseFeeUSDC := (USDC (pot gameData) * houseFeePercent)%Q in
        let payoutSOL := ((SOL (pot gameData) - houseFeeSOL) / count winners)%Q in
        let payoutUSDC := ((USDC (pot gameData) - houseFeeUSDC) / count winners)%Q in
        _ ← for_each winners (fun winner =>
              let payout := payout_of payoutSOL payoutUSDC winner in
              _ ← request
                (bets_update_won_call (betId (player winner)) payout (distance winner));
              _ ← credit (GameManager.userId (player winner))
                    (token (player winner)) payout;
              _ ← request
                (users_update_win_call (GameManager.userId (player winner))
                   (token (player winner)) payout);
              mret tt);
        let losers := losers_of winners (players gameData) in
        _ ← for_each losers (fun loser =>
              _ ← request
                (bets_update_lost_call (betId loser)
                   (Z.abs (chosenNumber loser - diceResult)));
              _ ← request
                (users_update_loss_call (GameManager.userId loser) (token loser)
                   (amount loser));
              mret tt);
        _ ← request
          (games_update_finished_call (gameId gameData) finished diceResult
             (map (fun w => GameManager.userId (player w)) winners)
             houseFeeSOL houseFeeUSDC);
        _ ← clean_up groupId;
        mret (success
          {| result_diceResult := diceResult; result_winners := winners;
             result_payoutSOL := payoutSOL; result_payoutUSDC := payoutUSDC;
             result_totalPlayers := length (players gameData);
             result_pot := pot gameData |})
  end.

Definition getActiveGame (groupId : Z) (w : World) : option GameData :=
  activeGames w !! groupId.

(** ** Runs *)

(** [new GameManager()] in given surroundings. *)
Definition new_GameManager (wallets : gmap Z Wallet) (next_id : Z)
    (failing : nat -> bool) (HOUSE_FEE_PERCENT : option Q) : World :=
  {| activeGames := ∅; gameTimers := ∅; wallets := wallets; next_id := next_id;
     failing := failing; calls := []; cleared := [];
     HOUSE_FEE_PERCENT := HOUSE_FEE_PERCENT |}.

(** One call of a method by the transport layer. *)
Inductive Op :=
  | do_startGame (groupId : Z) (groupName diceType randomnessMethod : string)
  | do_joinGame (groupId userId : Z) (username : string) (amount : Q)
      (token : string) (chosenNumber : Z)
  | do_rollDice (groupId diceResult : Z)
  | do_cancelGame (groupId : Z).

Definition step (w : World) (o : Op) : World :=
  match o with
  | do_startGame g n d r => snd (startGame g n d r w)
  | do_joinGame g u n a t c => snd (joinGame g u n a t c w)
  | do_rollDice g d => snd (rollDice g d w)
  | do_cancelGame g => snd (cancelGame g w)
  end.

Definition run (ops : list Op) (w : World) : World := fold_left step ops w.

End GameManager.

Import GameManager.

(** * Vocabulary of the design document *)

(** [distance(p) = abs(p.guess - outcome)] *)
Definition dist (diceResult : Z) (p : Player) : Z :=
  Z.abs (chosenNumber p - diceResult).

(** A participant no other participant is closer than. *)
Definition closest (diceResult : Z) (players : list Player) (p : Player) : Prop :=
  Forall (fun q => dist diceResult p <= dist diceResult q) players.

(** The sum of the stakes placed in [unit], added up in join order. *)
Definition staked (unit : string) (players : list Player) : Q :=
  fold_left
    (fun acc p => if decide (token p = unit) then (acc + amount p)%Q else acc)
    players 0%Q.

(** The sum of all stakes, added up in join order. *)
Definition total_staked (players : list Player) : Q :=
  fold_left (fun acc p => (acc + amount p)%Q) players 0%Q.

(** The winners that staked [unit]. *)
Definition winners_in (unit : string) (winners : list Scored) : list Scored :=
  filter (fun s => token (player s) = unit) winners.

(** [fee[unit]] and [distributable[unit]] for a pot of [p] and a fee rate. *)
Definition fee (feeRate p : Q) : Q := (p * feeRate)%Q.
Definition distributable (feeRate p : Q) : Q := (p - fee feeRate p)%Q.

(** Out of the range of a configuration, as [joinGame] tests it. *)
Definition out_of_range (c : DiceConfig) (chosenNumber : Z) : bool :=
  js_lt chosenNumber (config_min c) || js_gt chosenNumber (config_max c).

(** The errors [joinGame] detects before it sends any request. *)
Definition validation_error (e : Error) : Prop :=
  match e with
  | NoActiveRound | InvalidGuess _ _ | AlreadyJoined => True
  | _ => False
  end.

(** Only the database side of the state differs. *)
Definition db_only (w w' : World) : Prop :=
  activeGames w' = activeGames w /\ gameTimers w' = gameTimers w /\
  cleared w' = cleared w /\ failing w' = failing w /\
  HOUSE_FEE_PERCENT w' = HOUSE_FEE_PERCENT w.

(** The round [startGame] stores for a dice type and a row identifier. *)
Definition fresh_round (game : Z) (diceType randomnessMethod : string) : GameData :=
  {| gameId := game; diceType := diceType; randomnessMethod := randomnessMethod;
     diceConfig := getDiceConfig diceType; players := [];
     pot := {| SOL := 0; USDC := 0; others := ∅ |} |}.

(** The two numeric slots of the pot hold the stakes placed in them. *)
Definition pot_matches (gameData : GameData) : Prop :=
  SOL (pot gameData) = staked "SOL" (players gameData) /\
  USDC (pot gameData) = staked "USDC" (players gameData).


(** * Sample rounds *)

Definition alice : Player :=
  {| userId := 1; username := "alice"; amount := 10; token := "SOL";
     chosenNumber := 3; betId := 2 |}.

Definition bob : Player :=
  {| userId := 2; username := "bob"; amount := 10; token := "USDC";
     chosenNumber := 5; betId := 3 |}.

Definition two_wallets : gmap Z Wallet :=
  <[1 := {| sol_balance := 100; usdc_balance := 100 |}]>
    (<[2 := {| sol_balance := 100; usdc_balance := 100 |}]> ∅).

(** A manager whose database answers every request. *)
Definition w_new : World := new_GameManager two_wallets 1 (fun _ => false) None.

(** A round just opened, nobody joined. *)
Definition w_open : World := run [do_startGame 7 "Group" "D6" "telegram"] w_new.

(** Alice stakes 10 SOL on 3, Bob 10 USDC on 5. *)
Definition w_mixed : World :=
  run [do_startGame 7 "Group" "D6" "telegram";
       do_joinGame 7 1 "alice" 10 "SOL" 3;
       do_joinGame 7 2 "bob" 10 "USDC" 5] w_new.

(** Alice stakes with [/dice 1 sol 3]: the pattern of the command is
    case-insensitive and the token is passed on as typed. *)
Definition w_lowercase : World :=
  run [do_startGame 7 "Group" "D6" "telegram";
       do_joinGame 7 1 "alice" 1 "sol" 3] w_new.

(** A database that loses the fourth request: for one [startGame] and one
    [joinGame] that is the update of the wallet. *)
Definition w_lossy : World :=
  run [do_startGame 7 "Group" "D6" "telegram"]
    (new_GameManager two_wallets 1 (fun n => bool_decide (n = 3%nat)) None).

(** * Proofs *)

Ltac unfold_M :=
  unfold mbind, M_bind, mret, M_ret, gets, modify in *; simpl in *.

(** * Dice configurations *)

Lemma getDiceConfig_own (diceType : string) (range : DiceRange) :
  configs !! diceType = Some range -> getDiceConfig diceType = Config range.
Proof. intros H. unfold getDiceConfig. by rewrite H. Qed.

Lemma getDiceConfig_fallback (diceType : string) :
  diceType ∉ ["D6"; "D10"; "D20"; "D100"] ->
  diceType ∉ Object_prototype ->
  getDiceConfig diceType = Config D6.
Proof.
  intros Hown Hproto. unfold getDiceConfig, configs.
  rewrite !lookup_insert_ne, lookup_empty by set_solver.
  by rewrite bool_decide_eq_false_2.
Qed.

Lemma getDiceConfig_inherited (diceType : string) :
  diceType ∈ Object_prototype -> getDiceConfig diceType = Inherited diceType.
Proof.
  intros H. unfold Object_prototype in H.
  repeat (apply elem_of_cons in H as [-> | H]; [reflexivity |]).
  by apply elem_of_nil in H.
Qed.

Lemma configs_min_1 (diceType : string) (range : DiceRange) :
  configs !! diceType = Some range -> min range = 1.
Proof.
  unfold configs. intros H.
  repeat (apply lookup_insert_Some in H as [[_ <-] | [_ H]]; [reflexivity |]).
  by rewrite lookup_empty in H.
Qed.

(** * calculateWinners *)

Lemma Math_min_spec (xs : list Z) (m : Z) :
  Math_min xs = Some m -> m ∈ xs /\ forall x, x ∈ xs -> m <= x.
Proof.
  revert m. induction xs as [| x xs IHxs]; intros m; simpl; [done |].
  destruct (Math_min xs) as [m' |] eqn:E.
  - intros Hm. injection Hm as Hm. destruct (IHxs m' eq_refl) as [Hin Hle].
    clear IHxs. split.
    + destruct (Z.min_spec x m') as [[_ E'] | [_ E']]; rewrite E' in Hm;
        rewrite <- Hm; [left | by right].
    + intros y Hy. apply elem_of_cons in Hy as [Hy | Hy].
      * lia.
      * specialize (Hle y Hy). lia.
  - intros Hm. injection Hm as Hm. clear IHxs.
    destruct xs as [| x' xs]; [| simpl in E; destruct (Math_min xs); done].
    split; [rewrite Hm; left |].
    intros y Hy. apply elem_of_cons in Hy as [Hy | Hy]; [lia |].
    by apply elem_of_nil in Hy.
Qed.

Lemma Math_min_is_Some (xs : list Z) : xs <> [] -> is_Some (Math_min xs).
Proof. destruct xs; [done |]. simpl. destruct (Math_min xs); eauto. Qed.

Lemma calculateWinners_players (players : list Player) (diceResult : Z) :
  map player (calculateWinners players diceResult)
  = filter (fun p => Some (dist diceResult p)
                     = Math_min (map (dist diceResult) players)) players.
Proof.
  unfold calculateWinners. rewrite map_map. simpl.
  change (fun x : Player => Z.abs (chosenNumber x - diceResult)) with (dist diceResult).
  generalize (Math_min (map (dist diceResult) players)) as m. intros m.
  induction players as [| p ps IH]; [done |].
  simpl. rewrite !filter_cons. simpl.
  fold (dist diceResult p).
  destruct (decide (Some (dist diceResult p) = m)); simpl; by rewrite IH.
Qed.

Lemma calculateWinners_distance (players : list Player) (diceResult : Z) (s : Scored) :
  s ∈ calculateWinners players diceResult ->
  player s ∈ players /\ distance s = dist diceResult (player s).
Proof.
  unfold calculateWinners. intros [_ Hs]%list_elem_of_filter.
  apply list_elem_of_In, in_map_iff in Hs as (p & <- & Hp%list_elem_of_In). done.
Qed.

Lemma closest_iff_min (players : list Player) (diceResult m : Z) (p : Player) :
  Math_min (map (dist diceResult) players) = Some m ->
  p ∈ players ->
  closest diceResult players p <-> Some (dist diceResult p) = Some m.
Proof.
  intros [Hin Hle]%Math_min_spec Hp. unfold closest. rewrite Forall_forall. split.
  - intros Hall. f_equal.
    apply list_elem_of_In, in_map_iff in Hin as (q & Hq & Hqin%list_elem_of_In).
    specialize (Hall q Hqin).
    assert (m <= dist diceResult p).
    { apply Hle, list_elem_of_In, in_map. by apply list_elem_of_In. }
    lia.
  - intros [= ->] q Hq. apply Hle, list_elem_of_In, in_map. by apply list_elem_of_In.
Qed.

Lemma filter_iff_elem_of {A} (P1 P2 : A -> Prop)
    `{!forall x, Decision (P1 x), !forall x, Decision (P2 x)} (l : list A) :
  (forall x, x ∈ l -> P1 x <-> P2 x) -> filter P1 l = filter P2 l.
Proof.
  induction l as [| a l IHl]; intros Hiff; [done |].
  rewrite !filter_cons.
  assert (P1 a <-> P2 a) as Ha by (apply Hiff; left).
  rewrite IHl by (intros x Hx; apply Hiff; by right).
  destruct (decide (P1 a)), (decide (P2 a)); tauto.
Qed.

Lemma calculateWinners_closest (players : list Player) (diceResult : Z) :
  map player (calculateWinners players diceResult)
  = filter (closest diceResult players) players.
Proof.
  rewrite calculateWinners_players.
  destruct players as [| p0 ps]; [done |].
  destruct (Math_min_is_Some (map (dist diceResult) (p0 :: ps))) as [m Hm]; [done |].
  rewrite Hm. apply filter_iff_elem_of. intros p Hp.
  symmetry. by apply closest_iff_min.
Qed.

(** * Running the methods *)

Lemma out_of_range_Config (range : DiceRange) (chosenNumber : Z) :
  out_of_range (Config range) chosenNumber = true
  <-> chosenNumber < min range \/ max range < chosenNumber.
Proof.
  unfold out_of_range. simpl. rewrite orb_true_iff, Z.ltb_lt, Z.gtb_ltb, Z.ltb_lt.
  tauto.
Qed.

Lemma out_of_range_Inherited (key : string) (chosenNumber : Z) :
  out_of_range (Inherited key) chosenNumber = false.
Proof. reflexivity. Qed.

Lemma joinGame_NoActiveRound (w : World) (groupId userId : Z) (username : string)
    (amount : Q) (token : string) (chosenNumber : Z) :
  activeGames w !! groupId = None ->
  joinGame groupId userId username amount token chosenNumber w
  = (error NoActiveRound, w).
Proof. intros H. unfold joinGame. unfold_M. by rewrite H. Qed.

Lemma joinGame_InvalidGuess (w : World) (gameData : GameData) (groupId userId : Z)
    (username : string) (amount : Q) (token : string) (chosenNumber : Z) :
  activeGames w !! groupId = Some gameData ->
  out_of_range (diceConfig gameData) chosenNumber = true ->
  joinGame groupId userId username amount token chosenNumber w
  = (error (InvalidGuess (config_min (diceConfig gameData))
                         (config_max (diceConfig gameData))), w).
Proof.
  intros H Hout. unfold joinGame. unfold_M. rewrite H.
  unfold out_of_range in Hout. by rewrite Hout.
Qed.

Lemma joinGame_AlreadyJoined (w : World) (gameData : GameData) (groupId userId : Z)
    (username : string) (amount : Q) (token : string) (chosenNumber : Z) :
  activeGames w !! groupId = Some gameData ->
  out_of_range (diceConfig gameData) chosenNumber = false ->
  some_userId userId (players gameData) = true ->
  joinGame groupId userId username amount token chosenNumber w
  = (error AlreadyJoined, w).
Proof.
  intros H Hout Hsome. unfold joinGame. unfold_M. rewrite H.
  unfold out_of_range in Hout. by rewrite Hout, Hsome.
Qed.

Lemma joinGame_validation_error (w : World) (groupId userId : Z) (username : string)
    (amount : Q) (token : string) (chosenNumber : Z) (e : Error) :
  fst (joinGame groupId userId username amount token chosenNumber w) = error e ->
  validation_error e ->
  snd (joinGame groupId userId username amount token chosenNumber w) = w.
Proof.
  unfold joinGame, wallets_select, insert_row, wallets_update, request. unfold_M.
  destruct (activeGames w !! groupId) as [gameData |]; [| done].
  destruct (js_lt _ _ || js_gt _ _); [done |].
  destruct (some_userId _ _); [done |].
  destruct (failing w (length (calls w))); simpl.
  { intros [= <-]. done. }
  destruct (wallets w !! userId) as [wallet |]; simpl; [| intros [= <-]; done].
  destruct (Qltb _ _); simpl; [intros [= <-]; done |].
  destruct (failing w _); simpl; [intros [= <-]; done |].
  destruct (failing w _); simpl; done.
Qed.

(** ** Requests leave the manager alone *)

Lemma db_only_refl (w : World) : db_only w w.
Proof. by repeat split. Qed.

Lemma db_only_trans (w1 w2 w3 : World) :
  db_only w1 w2 -> db_only w2 w3 -> db_only w1 w3.
Proof.
  unfold db_only. intros (-> & -> & -> & -> & ->) (-> & -> & -> & -> & ->).
  by repeat split.
Qed.

Lemma request_db_only (c : Call) (w : World) : db_only w (snd (request c w)).
Proof. by repeat split. Qed.

Lemma wallets_select_db_only (user_id : Z) (w : World) :
  db_only w (snd (wallets_select user_id w)).
Proof.
  unfold wallets_select, request. unfold_M.
  destruct (failing w (length (calls w))); by repeat split.
Qed.

Lemma wallets_update_db_only (user_id : Z) (column : Column) (value : Q) (w : World) :
  db_only w (snd (wallets_update user_id column value w)).
Proof.
  unfold wallets_update, request. unfold_M.
  destruct (failing w (length (calls w))); by repeat split.
Qed.

Lemma insert_row_db_only (c : Call) (w : World) : db_only w (snd (insert_row c w)).
Proof.
  unfold insert_row, request. unfold_M.
  destruct (failing w (length (calls w))); by repeat split.
Qed.

Lemma bind_db_only {A B} (m : M A) (k : A -> M B) (w : World) :
  db_only w (snd (m w)) ->
  (forall a w', db_only w' (snd (k a w'))) ->
  db_only w (snd ((m ≫= k) w)).
Proof.
  intros Hm Hk. unfold_M. destruct (m w) as [a w'] eqn:E. simpl in Hm.
  eapply db_only_trans; [exact Hm | apply Hk].
Qed.

Create HintDb frame.
#[local] Hint Resolve db_only_refl request_db_only wallets_select_db_only
  wallets_update_db_only insert_row_db_only : frame.

(** Splits a sequence of steps into its steps. *)
Ltac frame_steps :=
  repeat (apply bind_db_only; [auto with frame | intros ? ?]); auto with frame.

Lemma credit_db_only (userId : Z) (token : string) (delta : Q) (w : World) :
  db_only w (snd (credit userId token delta w)).
Proof.
  unfold credit. apply bind_db_only; [auto with frame |].
  intros [wallet |] w'; frame_steps.
Qed.

#[local] Hint Resolve credit_db_only : frame.

Lemma for_each_db_only {A} (l : list A) (body : A -> M unit) :
  (forall x w, db_only w (snd (body x w))) ->
  forall w, db_only w (snd (for_each l body w)).
Proof.
  intros Hbody. induction l as [| x l IHl]; intros w; simpl.
  - apply db_only_refl.
  - apply bind_db_only; [apply Hbody | intros _ w'; apply IHl].
Qed.

(** ** Teardown *)

Lemma clean_up_activeGames (groupId : Z) (w : World) :
  activeGames (snd (clean_up groupId w)) = delete groupId (activeGames w).
Proof.
  unfold clean_up. unfold_M. by destruct (gameTimers w !! groupId).
Qed.

Lemma clean_up_db (groupId : Z) (w : World) :
  calls (snd (clean_up groupId w)) = calls w /\
  wallets (snd (clean_up groupId w)) = wallets w /\
  next_id (snd (clean_up groupId w)) = next_id w /\
  failing (snd (clean_up groupId w)) = failing w.
Proof.
  unfold clean_up. unfold_M. by destruct (gameTimers w !! groupId).
Qed.

Lemma cancelGame_activeGames (groupId : Z) (w : World) :
  activeGames (snd (cancelGame groupId w)) = delete groupId (activeGames w).
Proof.
  unfold cancelGame. unfold_M.
  destruct (activeGames w !! groupId) as [gameData |] eqn:E; simpl.
  - pose proof (for_each_db_only (players gameData)
      (fun player => credit (userId player) (token player) (amount player))
      (fun x w' => credit_db_only _ _ _ w') w) as H.
    destruct (for_each _ _ w) as [[] w1]. simpl in H.
    rewrite clean_up_activeGames. simpl. by destruct H as [-> _].
  - symmetry. by apply delete_id.
Qed.

Lemma snd_bind {A B} (m : M A) (k : A -> M B) (w : World) :
  snd ((m ≫= k) w) = snd (k (fst (m w)) (snd (m w))).
Proof. unfold_M. by destruct (m w). Qed.

Lemma fst_bind {A B} (m : M A) (k : A -> M B) (w : World) :
  fst ((m ≫= k) w) = fst (k (fst (m w)) (snd (m w))).
Proof. unfold_M. by destruct (m w). Qed.

Lemma for_each_activeGames {A} (l : list A) (body : A -> M unit) (w : World) :
  (forall x w', db_only w' (snd (body x w'))) ->
  activeGames (snd (for_each l body w)) = activeGames w.
Proof. intros H. by destruct (for_each_db_only l body H w) as [-> _]. Qed.

Lemma pay_winner_db_only (payoutSOL payoutUSDC : Q) (winner : Scored) (w : World) :
  db_only w (snd ((
    let payout := payout_of payoutSOL payoutUSDC winner in
    _ ← request
      (bets_update_won_call (betId (player winner)) payout (distance winner));
    _ ← credit (userId (player winner)) (token (player winner)) payout;
    _ ← request
      (users_update_win_call (userId (player winner)) (token (player winner)) payout);
    mret tt) w)).
Proof. simpl. frame_steps. Qed.

Lemma update_loser_db_only (diceResult : Z) (loser : Player) (w : World) :
  db_only w (snd ((
    _ ← request
      (bets_update_lost_call (betId loser) (Z.abs (chosenNumber loser - diceResult)));
    _ ← request
      (users_update_loss_call (userId loser) (token loser) (amount loser));
    mret tt) w)).
Proof. frame_steps. Qed.

Lemma bind_activeGames {A B} (f : gmap Z GameData -> gmap Z GameData)
    (m : M A) (k : A -> M B) (w : World) :
  db_only w (snd (m w)) ->
  (forall a w', activeGames (snd (k a w')) = f (activeGames w')) ->
  activeGames (snd ((m ≫= k) w)) = f (activeGames w).
Proof.
  intros Hm Hk. rewrite snd_bind, Hk. by destruct Hm as [-> _].
Qed.

Lemma rollDice_activeGames (groupId diceResult : Z) (w : World) :
  activeGames (snd (rollDice groupId diceResult w)) = delete groupId (activeGames w).
Proof.
  unfold rollDice. rewrite snd_bind. simpl.
  destruct (activeGames w !! groupId) as [gameData |] eqn:E; simpl.
  2: { symmetry. by apply delete_id. }
  case_bool_decide.
  - rewrite snd_bind. simpl. apply cancelGame_activeGames.
  - apply bind_activeGames; [apply request_db_only |]. intros _ w1.
    apply bind_activeGames; [apply db_only_refl |]. intros pct w2.
    apply bind_activeGames.
    { apply for_each_db_only. intros x w'. apply pay_winner_db_only. }
    intros _ w3. apply bind_activeGames.
    { apply for_each_db_only. intros x w'. apply update_loser_db_only. }
    intros _ w4. apply bind_activeGames; [apply request_db_only |]. intros _ w5.
    rewrite snd_bind. simpl. apply clean_up_activeGames.
Qed.

(** ** startGame *)

Lemma startGame_AlreadyActive (w : World) (groupId : Z)
    (groupName diceType randomnessMethod : string) :
  is_Some (activeGames w !! groupId) ->
  startGame groupId groupName diceType randomnessMethod w = (error AlreadyActive, w).
Proof. intros [gameData H]. unfold startGame. unfold_M. by rewrite H. Qed.

Lemma startGame_success (w : World) (groupId : Z)
    (groupName diceType randomnessMethod : string) :
  activeGames w !! groupId = None ->
  failing w (length (calls w)) = false ->
  fst (startGame groupId groupName diceType randomnessMethod w) = success (next_id w) /\
  activeGames (snd (startGame groupId groupName diceType randomnessMethod w))
  = <[groupId := fresh_round (next_id w) diceType randomnessMethod]> (activeGames w).
Proof.
  intros H Hok. unfold startGame, insert_row, request. unfold_M.
  by rewrite H, Hok.
Qed.

Lemma startGame_failure (w : World) (groupId : Z)
    (groupName diceType randomnessMethod : string) :
  activeGames w !! groupId = None ->
  failing w (length (calls w)) = true ->
  fst (startGame groupId groupName diceType randomnessMethod w)
  = error FailedToCreateGame /\
  activeGames (snd (startGame groupId groupName diceType randomnessMethod w))
  = activeGames w.
Proof.
  intros H Hko. unfold startGame, insert_row, request. unfold_M.
  by rewrite H, Hko.
Qed.

(** * Pots and stakes *)

Lemma staked_app (unit : string) (players : list Player) (p : Player) :
  staked unit (players ++ [p])
  = if decide (token p = unit) then (staked unit players + amount p)%Q
    else staked unit players.
Proof. unfold staked. by rewrite fold_left_app. Qed.

Lemma fresh_round_pot_matches (game : Z) (diceType randomnessMethod : string) :
  pot_matches (fresh_round game diceType randomnessMethod).
Proof. by split. Qed.

Lemma add_player_pot_matches (p : Player) (gameData : GameData) :
  pot_matches gameData -> pot_matches (add_player p gameData).
Proof.
  intros [HS HU]. unfold pot_matches, add_player, pot_add. simpl.
  rewrite !staked_app.
  destruct (decide (token p = "SOL")) as [eS | nS]; simpl.
  { rewrite HS. split; [done |]. rewrite decide_False; [done |]. by rewrite eS. }
  destruct (decide (token p = "USDC")) as [eU | nU]; simpl; [by rewrite HU | done].
Qed.

(** What [joinGame] does to [activeGames]: nothing, or it adds one player to
    the round of the group. *)
Lemma joinGame_activeGames (w : World) (groupId userId : Z) (username : string)
    (amount : Q) (token : string) (chosenNumber : Z) :
  (exists e, fst (joinGame groupId userId username amount token chosenNumber w) = error e /\
     activeGames (snd (joinGame groupId userId username amount token chosenNumber w))
     = activeGames w) \/
  (exists gameData bet,
     activeGames w !! groupId = Some gameData /\
     fst (joinGame groupId userId username amount token chosenNumber w) = success bet /\
     activeGames (snd (joinGame groupId userId username amount token chosenNumber w))
     = <[groupId :=
          add_player {| userId := userId; username := username; amount := amount;
                        token := token; chosenNumber := chosenNumber; betId := bet |}
            gameData]> (activeGames w)).
Proof.
  unfold joinGame, wallets_select, insert_row, wallets_update, request. unfold_M.
  destruct (activeGames w !! groupId) as [gameData |] eqn:E; [| left; eauto].
  destruct (js_lt _ _ || js_gt _ _); [left; eauto |].
  destruct (some_userId _ _); [left; eauto |].
  destruct (failing w (length (calls w))); simpl; [left; eauto |].
  destruct (wallets w !! userId) as [wallet |]; simpl; [| left; eauto].
  destruct (Qltb _ _); simpl; [left; eauto |].
  destruct (failing w _); simpl; [left; eauto |].
  right. exists gameData, (next_id w). split; [done |].
  destruct (failing w _); simpl; by split.
Qed.

Lemma startGame_activeGames (w : World) (groupId : Z)
    (groupName diceType randomnessMethod : string) :
  activeGames (snd (startGame groupId groupName diceType randomnessMethod w))
  = activeGames w \/
  exists game,
    activeGames (snd (startGame groupId groupName diceType randomnessMethod w))
    = <[groupId := fresh_round game diceType randomnessMethod]> (activeGames w).
Proof.
  unfold startGame, insert_row, request. unfold_M.
  destruct (activeGames w !! groupId); [by left |].
  destruct (failing w (length (calls w))); simpl; [by left | right; eauto].
Qed.

(** In every state a sequence of method calls leads to from a new manager,
    the SOL and USDC slots of every pot are the sums of the stakes placed in
    SOL and in USDC. *)
Lemma run_pot_matches (ops : list Op) (w : World) :
  (forall groupId gameData,
     activeGames w !! groupId = Some gameData -> pot_matches gameData) ->
  forall groupId gameData,
    activeGames (run ops w) !! groupId = Some gameData -> pot_matches gameData.
Proof.
  revert w. induction ops as [| o ops IHops]; intros w Hw; [done |].
  simpl. apply IHops. intros g gd.
  destruct o as [g0 n d r | g0 u n a t c | g0 d | g0]; simpl.
  - destruct (startGame_activeGames w g0 n d r) as [-> | [game ->]]; [apply Hw |].
    rewrite lookup_insert. case_decide; [| apply Hw].
    intros [= <-]. apply fresh_round_pot_matches.
  - destruct (joinGame_activeGames w g0 u n a t c)
      as [(e & _ & ->) | (gd0 & bet & Hg0 & _ & ->)]; [apply Hw |].
    rewrite lookup_insert. case_decide; [| apply Hw].
    intros [= <-]. apply add_player_pot_matches. by apply (Hw g0).
  - rewrite rollDice_activeGames. intros [_ H]%lookup_delete_Some. by apply (Hw g).
  - rewrite cancelGame_activeGames. intros [_ H]%lookup_delete_Some. by apply (Hw g).
Qed.

Lemma new_GameManager_pot_matches (ops : list Op) (wallets : gmap Z Wallet)
    (next_id : Z) (failing : nat -> bool) (HOUSE_FEE_PERCENT : option Q)
    (groupId : Z) (gameData : GameData) :
  activeGames (run ops (new_GameManager wallets next_id failing HOUSE_FEE_PERCENT))
    !! groupId = Some gameData ->
  pot_get (pot gameData) "SOL" = Number (staked "SOL" (players gameData)) /\
  pot_get (pot gameData) "USDC" = Number (staked "USDC" (players gameData)).
Proof.
  intros H. eapply run_pot_matches in H as [HS HU].
  - unfold pot_get. simpl. by rewrite HS, HU.
  - intros g gd. simpl. by rewrite lookup_empty.
Qed.

(** * Fees and payouts *)

Lemma fee_plus_distributable (feeRate p : Q) :
  (fee feeRate p + distributable feeRate p == p)%Q.
Proof. unfold distributable, fee. ring. Qed.

Lemma houseFeePercent_default (w : World) :
  HOUSE_FEE_PERCENT w = None -> (houseFeePercent w == 0.02)%Q.
Proof. intros H. unfold houseFeePercent. rewrite H. reflexivity. Qed.

(** The answer of [rollDice] on a round with players: the winners are those
    of [calculateWinners], and each of the two payouts is the pot of that
    token less its fee, divided by the number of all winners. *)
Lemma rollDice_success (w : World) (gameData : GameData) (groupId diceResult : Z) :
  activeGames w !! groupId = Some gameData ->
  players gameData <> [] ->
  let winners := calculateWinners (players gameData) diceResult in
  fst (rollDice groupId diceResult w)
  = success
      {| result_diceResult := diceResult; result_winners := winners;
         result_payoutSOL :=
           (distributable (houseFeePercent w) (SOL (pot gameData)) / count winners)%Q;
         result_payoutUSDC :=
           (distributable (houseFeePercent w) (USDC (pot gameData)) / count winners)%Q;
         result_totalPlayers := length (players gameData);
         result_pot := pot gameData |}.
Proof.
  intros Hg Hp winners. unfold rollDice. rewrite fst_bind. simpl. rewrite Hg.
  rewrite bool_decide_eq_false_2 by (by destruct (players gameData)).
  repeat (rewrite fst_bind; simpl). reflexivity.
Qed.

(** When all winners staked the same token, the number of all winners is the
    number of winners of that token. *)
Lemma winners_in_all (unit : string) (winners : list Scored) :
  Forall (fun s => token (player s) = unit) winners ->
  winners_in unit winners = winners.
Proof.
  unfold winners_in. induction 1 as [| s l Hs Hl IHl]; [done |].
  rewrite filter_cons, decide_True by done. by rewrite IHl.
Qed.

(** With winners of one token only, SOL or USDC, the payout is the amount to
    distribute of that token divided by the number of its winners. *)
Lemma payout_of_single_token (unit : string) (toSOL toUSDC : Q)
    (winners : list Scored) (winner : Scored) :
  unit = "SOL" \/ unit = "USDC" ->
  Forall (fun s => token (player s) = unit) winners ->
  winner ∈ winners ->
  payout_of (toSOL / count winners) (toUSDC / count winners) winner
  = ((if decide (unit = "SOL") then toSOL else toUSDC)
     / count (winners_in unit winners))%Q.
Proof.
  intros Hunit Hall Hin. rewrite (winners_in_all unit winners Hall).
  rewrite Forall_forall in Hall. specialize (Hall winner Hin).
  unfold payout_of. rewrite Hall.
  destruct Hunit as [-> | ->]; reflexivity.
Qed.

(** Whether [startGame] succeeds does not depend on the dice type. *)
Lemma startGame_any_diceType (w : World) (groupId : Z)
    (groupName diceType diceType' randomnessMethod : string) :
  fst (startGame groupId groupName diceType randomnessMethod w)
  = fst (startGame groupId groupName diceType' randomnessMethod w).
Proof.
  unfold startGame, insert_row, request. unfold_M.
  destruct (activeGames w !! groupId); [done |].
  by destruct (failing w (length (calls w))).
Qed.

(** A round opened with one of the four dice types, or with a name that is
    neither one of them nor inherited, has a range that starts at 1. *)
Lemma fresh_round_min (game : Z) (diceType randomnessMethod : string) :
  diceType ∉ Object_prototype ->
  config_min (diceConfig (fresh_round game diceType randomnessMethod)) = Some 1.
Proof.
  intros Hproto. simpl. unfold getDiceConfig.
  destruct (configs !! diceType) as [range |] eqn:E; simpl.
  - f_equal. by apply configs_min_1 with diceType.
  - by rewrite bool_decide_eq_false_2.
Qed.

(** * Properties stated by the design document *)

Lemma some_userId_true (userId : Z) (players : list Player) :
  some_userId userId players = true <-> userId ∈ map GameManager.userId players.
Proof.
  unfold some_userId. rewrite existsb_exists, list_elem_of_In, in_map_iff.
  split; intros (p & H1 & H2); exists p.
  - by apply bool_decide_eq_true in H2.
  - split; [done |]. by apply bool_decide_eq_true.
Qed.

(** C2: for a non-empty list of players the winners of [calculateWinners] are
    exactly the players whose distance [abs(chosenNumber - diceResult)] is the
    minimum over all players, each carrying that distance; they come in join
    order, every tie is kept, and neither the order nor the amount is looked
    at. *)
Theorem C2_winners_are_exactly_the_closest (players : list Player) (diceResult : Z) :
  players <> [] ->
  let winners := calculateWinners players diceResult in
  (exists minDistance,
      (forall q, q ∈ players -> minDistance <= dist diceResult q) /\
      (exists q, q ∈ players /\ dist diceResult q = minDistance) /\
      map player winners = filter (fun p => dist diceResult p = minDistance) players) /\
  (forall s, s ∈ winners -> distance s = dist diceResult (player s)) /\
  (forall p q, p ∈ players -> q ∈ players ->
     dist diceResult p = dist diceResult q ->
     p ∈ map player winners <-> q ∈ map player winners) /\
  winners <> [].
Proof.
  intros Hne winners.
  destruct (Math_min_is_Some (map (dist diceResult) players)) as [m Hm].
  { by destruct players. }
  pose proof (Math_min_spec _ _ Hm) as [Hin Hle].
  apply list_elem_of_In, in_map_iff in Hin as (q0 & Hq0 & Hq0in%list_elem_of_In).
  assert (map player winners = filter (fun p => dist diceResult p = m) players) as Hw.
  { subst winners. rewrite calculateWinners_players, Hm.
    apply filter_iff_elem_of. intros p _. split; [by intros [= ->] | by intros ->]. }
  repeat split.
  - exists m. repeat split; [| by exists q0 | done].
    intros q Hq. apply Hle, list_elem_of_In, in_map. by apply list_elem_of_In.
  - intros s Hs. by apply calculateWinners_distance in Hs as [_ ->].
  - rewrite Hw. intros [Hp _]%list_elem_of_filter.
    apply list_elem_of_filter. split; [congruence | done].
  - rewrite Hw. intros [Hq' _]%list_elem_of_filter.
    apply list_elem_of_filter. split; [congruence | done].
  - intros Hnil. rewrite Hnil in Hw. simpl in Hw.
    assert (q0 ∈ filter (fun p => dist diceResult p = m) players) as Hq
      by (by apply list_elem_of_filter).
    rewrite <- Hw in Hq. by apply elem_of_nil in Hq.
Qed.

Lemma C2_witness :
  [alice; bob] <> [] /\ calculateWinners [alice; bob] 4 <> [].
Proof.
  assert ([alice; bob] <> []) as Hne by discriminate.
  split; [exact Hne |].
  apply (C2_winners_are_exactly_the_closest [alice; bob] 4 Hne).
Defined.

(** C3 as stated fails: a second join of an account that is already in the
    round, made with a guess outside the range, is answered with the range
    message and not with "already joined". *)
Lemma C3_counterexample :
  ~ (forall (w : World) (gameData : GameData) (groupId userId : Z)
       (username : string) (amount : Q) (token : string) (chosenNumber : Z),
       activeGames w !! groupId = Some gameData ->
       userId ∈ map GameManager.userId (players gameData) ->
       fst (joinGame groupId userId username amount token chosenNumber w)
       = error AlreadyJoined).
Proof.
  intros H.
  assert (activeGames w_mixed !! 7
          = Some (add_player bob (add_player alice (fresh_round 1 "D6" "telegram"))))
    as Hg by (vm_compute; reflexivity).
  specialize (H w_mixed _ 7 1 "alice" 10%Q "SOL" 7 Hg).
  assert (fst (joinGame 7 1 "alice" 10%Q "SOL" 7 w_mixed)
          = error (InvalidGuess (Some 1) (Some 6))) as Hr by (vm_compute; reflexivity).
  rewrite Hr in H. discriminate H. simpl. set_solver.
Qed.

(** C3, amended: a second join of an account that is already in the round
    fails whatever amount and token it carries and changes nothing; the error
    is the range error when the guess is outside the range of the round and
    "already joined" otherwise. *)
Theorem C3_second_join_fails (w : World) (gameData : GameData) (groupId userId : Z)
    (username : string) (amount : Q) (token : string) (chosenNumber : Z) :
  activeGames w !! groupId = Some gameData ->
  userId ∈ map GameManager.userId (players gameData) ->
  joinGame groupId userId username amount token chosenNumber w
  = (error (if out_of_range (diceConfig gameData) chosenNumber
            then InvalidGuess (config_min (diceConfig gameData))
                              (config_max (diceConfig gameData))
            else AlreadyJoined), w).
Proof.
  intros Hg Hu. destruct (out_of_range _ _) eqn:E.
  - by apply joinGame_InvalidGuess.
  - apply joinGame_AlreadyJoined with gameData; [done | done |].
    by apply some_userId_true.
Qed.

Lemma C3_witness :
  joinGame 7 1 "alice" 5%Q "USDC" 4 w_mixed = (error AlreadyJoined, w_mixed) /\
  joinGame 7 1 "alice" 5%Q "USDC" 7 w_mixed
  = (error (InvalidGuess (Some 1) (Some 6)), w_mixed).
Proof.
  assert (activeGames w_mixed !! 7
          = Some (add_player bob (add_player alice (fresh_round 1 "D6" "telegram"))))
    as Hg by (vm_compute; reflexivity).
  assert (1 ∈ map userId
            (players (add_player bob (add_player alice (fresh_round 1 "D6" "telegram")))))
    as Hu by (simpl; left).
  split.
  - rewrite (C3_second_join_fails w_mixed _ 7 1 "alice" 5%Q "USDC" 4 Hg Hu).
    reflexivity.
  - rewrite (C3_second_join_fails w_mixed _ 7 1 "alice" 5%Q "USDC" 7 Hg Hu).
    reflexivity.
Defined.

(** C5: while a round of the group is in [activeGames], [startGame] answers
    "already in progress" and changes nothing; once [rollDice] (settling or
    cancelling) or [cancelGame] has run for the group its entry is gone, and a
    [startGame] whose insertion the database accepts succeeds and registers a
    new round. *)
Theorem C5_one_round_per_group (w : World) (groupId : Z)
    (groupName diceType randomnessMethod : string) :
  (is_Some (activeGames w !! groupId) ->
   startGame groupId groupName diceType randomnessMethod w
   = (error AlreadyActive, w)) /\
  (forall w',
     (w' = snd (cancelGame groupId w) \/
      exists diceResult, w' = snd (rollDice groupId diceResult w)) ->
     activeGames w' !! groupId = None /\
     (failing w' (length (calls w')) = false ->
      fst (startGame groupId groupName diceType randomnessMethod w')
      = success (next_id w') /\
      activeGames (snd (startGame groupId groupName diceType randomnessMethod w'))
        !! groupId
      = Some (fresh_round (next_id w') diceType randomnessMethod))).
Proof.
  split; [apply startGame_AlreadyActive |].
  intros w' Hw'.
  assert (activeGames w' !! groupId = None) as Hnone.
  { destruct Hw' as [-> | [diceResult ->]].
    - rewrite cancelGame_activeGames. apply lookup_delete_eq.
    - rewrite rollDice_activeGames. apply lookup_delete_eq. }
  split; [done |]. intros Hok.
  destruct (startGame_success w' groupId groupName diceType randomnessMethod Hnone Hok)
    as [Hr Ha].
  split; [done |]. rewrite Ha. apply lookup_insert_eq.
Qed.

Lemma C5_witness :
  startGame 7 "Group" "D20" "chainlink" w_mixed = (error AlreadyActive, w_mixed) /\
  fst (startGame 7 "Group" "D20" "chainlink" (snd (rollDice 7 4 w_mixed)))
  = success 4.
Proof.
  destruct (C5_one_round_per_group w_mixed 7 "Group" "D20" "chainlink") as [H1 H2].
  split.
  - apply H1. vm_compute. eauto.
  - destruct (H2 (snd (rollDice 7 4 w_mixed))) as [_ H3].
    + right. by exists 4.
    + destruct H3 as [H3 _]; [vm_compute; reflexivity |].
      rewrite H3. vm_compute. reflexivity.
Defined.

(** C6: a join whose guess is outside the range of the round (for instance
    [max + 1]) is refused with the range error, and a join refused for the
    missing round, for the guess or for the repeated account leaves the whole
    state as it was: same pot, same players, no request sent to the
    database, so no debit and no bet record. *)
Theorem C6_validation_errors_have_no_side_effect (w : World) (groupId userId : Z)
    (username : string) (amount : Q) (token : string) (chosenNumber : Z) :
  (forall gameData range,
     activeGames w !! groupId = Some gameData ->
     diceConfig gameData = Config range ->
     chosenNumber < min range \/ max range < chosenNumber ->
     joinGame groupId userId username amount token chosenNumber w
     = (error (InvalidGuess (Some (min range)) (Some (max range))), w)) /\
  (forall e,
     fst (joinGame groupId userId username amount token chosenNumber w) = error e ->
     validation_error e ->
     snd (joinGame groupId userId username amount token chosenNumber w) = w).
Proof.
  split.
  - intros gameData range Hg Hc Hout.
    rewrite (joinGame_InvalidGuess w gameData); [by rewrite Hc | done |].
    rewrite Hc. by apply out_of_range_Config.
  - apply joinGame_validation_error.
Qed.

Lemma C6_witness :
  joinGame 7 2 "bob" 10%Q "USDC" (6 + 1) w_open
  = (error (InvalidGuess (Some 1) (Some 6)), w_open) /\
  snd (joinGame 8 2 "bob" 10%Q "USDC" 3 w_open) = w_open.
Proof.
  destruct (C6_validation_errors_have_no_side_effect w_open 7 2 "bob" 10%Q "USDC" (6 + 1))
    as [H1 _].
  destruct (C6_validation_errors_have_no_side_effect w_open 8 2 "bob" 10%Q "USDC" 3)
    as [_ H2].
  split.
  - apply (H1 (fresh_round 1 "D6" "telegram") D6);
      [vm_compute; reflexivity | reflexivity | right; reflexivity].
  - apply (H2 NoActiveRound); [vm_compute; reflexivity | exact I].
Defined.

(** C8: [rollDice] on a round without players answers "no players, game
    cancelled"; the only request it sends is the update of the game to the
    status cancelled, so the ledger is neither read nor written, and the
    entry of the group is removed from [activeGames]. *)
Theorem C8_empty_round_is_cancelled (w : World) (gameData : GameData)
    (groupId diceResult : Z) :
  activeGames w !! groupId = Some gameData ->
  players gameData = [] ->
  fst (rollDice groupId diceResult w) = error EmptyRound /\
  calls (snd (rollDice groupId diceResult w))
  = calls w ++ [games_update_status_call (gameId gameData) cancelled] /\
  is_ledger_call (games_update_status_call (gameId gameData) cancelled) = false /\
  wallets (snd (rollDice groupId diceResult w)) = wallets w /\
  activeGames (snd (rollDice groupId diceResult w)) = delete groupId (activeGames w).
Proof.
  intros Hg Hp. split; [| split; [| split; [done | split]]].
  - unfold rollDice. rewrite fst_bind. simpl. rewrite Hg, Hp. simpl.
    by rewrite fst_bind.
  - unfold rollDice. rewrite snd_bind. simpl. rewrite Hg, Hp. simpl.
    rewrite snd_bind. simpl. unfold cancelGame. rewrite snd_bind. simpl.
    rewrite Hg, Hp. simpl. rewrite !snd_bind. simpl.
    by destruct (clean_up_db groupId
      (set_calls (fun cs => cs ++ [games_update_status_call (gameId gameData) cancelled]) w))
      as [-> _].
  - unfold rollDice. rewrite snd_bind. simpl. rewrite Hg, Hp. simpl.
    rewrite snd_bind. simpl. unfold cancelGame. rewrite snd_bind. simpl.
    rewrite Hg, Hp. simpl. rewrite !snd_bind. simpl.
    by destruct (clean_up_db groupId
      (set_calls (fun cs => cs ++ [games_update_status_call (gameId gameData) cancelled]) w))
      as (_ & -> & _).
  - apply rollDice_activeGames.
Qed.

Lemma C8_witness :
  fst (rollDice 7 4 w_open) = error EmptyRound /\
  calls (snd (rollDice 7 4 w_open))
  = calls w_open ++ [games_update_status_call 1 cancelled] /\
  activeGames (snd (rollDice 7 4 w_open)) !! 7 = None.
Proof.
  assert (activeGames w_open !! 7 = Some (fresh_round 1 "D6" "telegram"))
    as Hg by (vm_compute; reflexivity).
  destruct (C8_empty_round_is_cancelled w_open (fresh_round 1 "D6" "telegram") 7 4
              Hg eq_refl) as (H1 & H2 & _ & _ & H3).
  split; [exact H1 | split; [exact H2 |]].
  rewrite H3. apply lookup_delete_eq.
Defined.

(** C1, evaluated on a tie between two tokens.  Alice (10 SOL on 3) and Bob
    (10 USDC on 5) both win the roll 4.  The SOL to distribute are 9.8 and
    Alice is the only winner who staked SOL, yet the payout of the answer, the
    payout written to her bet and the amount added to her wallet are 4.9:
    each pot is divided by the number of all winners. *)
Theorem C1_payout_divides_by_all_winners :
  let r := rollDice 7 4 w_mixed in
  let winners := calculateWinners [alice; bob] 4 in
  map player winners = [alice; bob] /\
  length (winners_in "SOL" winners) = 1%nat /\
  match activeGames w_mixed !! 7, fst r, calls (snd r) !! 10%nat,
        wallets (snd r) !! 1 with
  | Some gameData, success res, Some (bets_update_won_call 2 payout 1), Some wallet =>
      players gameData = [alice; bob] /\
      result_winners res = winners /\
      (distributable (houseFeePercent w_mixed) (SOL (pot gameData)) == 9.8)%Q /\
      (result_payoutSOL res == 4.9)%Q /\
      (payout == 4.9)%Q /\
      (sol_balance wallet == 100 - 10 + 4.9)%Q
  | _, _, _, _ => False
  end.
Proof. vm_compute. repeat split. Qed.

(** C4, evaluated on a stake in [sol].  The join succeeds and debits the USDC
    column; the player is recorded with the token [sol] and the stake 1, but
    the slot [sol] of the pot holds no number, and the SOL and USDC slots stay
    at 0. *)
Theorem C4_pot_of_unlisted_token :
  let r := joinGame 7 1 "alice" 1%Q "sol" 3 w_open in
  fst r = success 2 /\
  wallets (snd r) !! 1 = Some {| sol_balance := 100; usdc_balance := 99 |} /\
  match activeGames (snd r) !! 7 with
  | Some gameData =>
      map token (players gameData) = ["sol"] /\
      staked "sol" (players gameData) = 1%Q /\
      pot_get (pot gameData) "sol" = NonNumeric /\
      pot_get (pot gameData) "SOL" = Number 0%Q /\
      pot_get (pot gameData) "USDC" = Number 0%Q
  | None => False
  end.
Proof. vm_compute. repeat split. Qed.

(** C7, evaluated on the round with the stake in [sol].  One unit was staked
    and debited; at settlement both fees and both amounts to distribute are
    zero, the only winner is paid zero, and her balance stays one unit
    short. *)
Theorem C7_stake_outside_both_pots :
  let r := rollDice 7 4 w_lowercase in
  wallets w_new !! 1 = Some {| sol_balance := 100; usdc_balance := 100 |} /\
  wallets w_lowercase !! 1 = Some {| sol_balance := 100; usdc_balance := 99 |} /\
  match activeGames w_lowercase !! 7, fst r, last (calls (snd r)),
        wallets (snd r) !! 1 with
  | Some gameData, success res,
    Some (games_update_finished_call 1 finished 4 [1] houseFeeSOL houseFeeUSDC),
    Some wallet =>
      let feeRate := houseFeePercent w_lowercase in
      (total_staked (players gameData) == 1)%Q /\
      (houseFeeSOL == fee feeRate (SOL (pot gameData)))%Q /\
      (houseFeeUSDC == fee feeRate (USDC (pot gameData)))%Q /\
      (houseFeeSOL + distributable feeRate (SOL (pot gameData))
       + (houseFeeUSDC + distributable feeRate (USDC (pot gameData))) == 0)%Q /\
      (result_payoutSOL res == 0)%Q /\ (result_payoutUSDC res == 0)%Q /\
      (sol_balance wallet == 100)%Q /\ (usdc_balance wallet == 99)%Q
  | _, _, _, _ => False
  end.
Proof. vm_compute. repeat split. Qed.

(** C9, evaluated on a database that loses the update of the wallet.  The
    balance check passes, the bet is inserted, the debit is sent and fails:
    the wallet is unchanged, yet [joinGame] answers with success, the player is
    in the round and the pot holds the stake. *)
Theorem C9_failed_debit_still_joins :
  let r := joinGame 7 1 "alice" 10%Q "SOL" 3 w_lossy in
  calls (snd r) !! 3%nat = Some (wallets_update_call 1 col_sol_balance 90) /\
  failing w_lossy 3 = true /\
  wallets (snd r) !! 1 = wallets w_lossy !! 1 /\
  wallets (snd r) !! 1 = Some {| sol_balance := 100; usdc_balance := 100 |} /\
  fst r = success 2 /\
  match activeGames (snd r) !! 7 with
  | Some gameData =>
      players gameData = [alice] /\ pot_get (pot gameData) "SOL" = Number 10%Q
  | None => False
  end.
Proof. vm_compute. repeat split. Qed.

(** C10, evaluated on the dice type [constructor]: the lookup returns the
    property inherited from [Object.prototype] instead of the D6
    configuration; [startGame] succeeds, the round it registers has no [min]
    and no [max], and a guess of 1000 is accepted. *)
Theorem C10_inherited_key_is_returned :
  let r := startGame 7 "Group" "constructor" "telegram" w_new in
  ("constructor" ∉ ["D6"; "D10"; "D20"; "D100"]) /\
  getDiceConfig "constructor" = Inherited "constructor" /\
  getDiceConfig "constructor" <> Config D6 /\
  fst r = success 1 /\
  match activeGames (snd r) !! 7 with
  | Some gameData =>
      config_min (diceConfig gameData) = None /\
      config_max (diceConfig gameData) = None
  | None => False
  end /\
  fst (joinGame 7 1 "alice" 10%Q "SOL" 1000 (snd r)) = success 2.
Proof.
  split.
  { intros H. repeat (apply elem_of_cons in H as [H | H]; [discriminate H |]).
    by apply elem_of_nil in H. }
  split; [reflexivity |]. split; [discriminate |].
  vm_compute. repeat split.
Qed.
